(** * QuTiP gate constructors and the control processor's pulse list

    A shallow embedding of [qutip/gates.py] (the constructors [cnot], [snot],
    [fredkin] and [toffoli]) together with the positional pulse list behind
    [add_control] / [remove_pulse], which [qutip/tests/test_processor.py]
    drives.

    Numbers.  The entries of a quantum object are complex128 values.  They
    are modelled twice.

    - [Binary64]: pairs of binary64 numbers with the roundings of IEEE 754;
      this is what [gates.py] computes, [sqrt(2)] included, and it is where
      everything about [snot] is stated.
    - Exact entries: the operators of [cnot], [fredkin] and [toffoli] have
      entries 0 and 1 only, on which binary64 arithmetic is exact.  They are
      also given over exact complex numbers, so that their action can be
      stated for all amplitudes at once. *)

From Stdlib Require Import ZArith QArith Qring Ring List String Ascii Bool Arith
  Lia Floats.
Import ListNotations.

Set Implicit Arguments.

(* ================================================================== *)
(** ** Exceptions *)

(** Python exceptions raised on the paths modelled here; a mismatch of
    dimension structures is the [DimensionMismatch] of the processor's error
    taxonomy. *)
Inductive error : Type :=
  | TypeError
  | IndexError
  | DimensionMismatch.

Inductive result (A : Type) : Type :=
  | Ok (a : A)
  | Err (e : error).

Arguments Ok {A} a.
Arguments Err {A} e.

Definition bind {A B : Type} (m : result A) (k : A -> result B) : result B :=
  match m with
  | Ok a => k a
  | Err e => Err e
  end.

Declare Scope result_scope.
Delimit Scope result_scope with result.
Notation "x <- m ;; k" := (bind m (fun x => k))
  (at level 61, m at next level, right associativity) : result_scope.

Definition is_ok {A : Type} (m : result A) : bool :=
  match m with Ok _ => true | Err _ => false end.

(* ================================================================== *)
(** ** Scalars *)

Module Scalar.

(** Rationals, always reduced to lowest terms. *)
Definition qadd (a b : Q) : Q := Qred (a + b).
Definition qmul (a b : Q) : Q := Qred (a * b).
Definition qopp (a : Q) : Q := Qred (- a).

(** [rat + irr * sqrt 2]. *)
Record surd : Type := mkSurd { rat : Q; irr : Q }.

Definition sadd (x y : surd) : surd :=
  mkSurd (qadd (rat x) (rat y)) (qadd (irr x) (irr y)).
Definition sopp (x : surd) : surd :=
  mkSurd (qopp (rat x)) (qopp (irr x)).
Definition smul (x y : surd) : surd :=
  mkSurd (qadd (qmul (rat x) (rat y)) (qmul 2 (qmul (irr x) (irr y))))
         (qadd (qmul (rat x) (irr y)) (qmul (irr x) (rat y))).
Definition s0 : surd := mkSurd 0 0.
Definition s1 : surd := mkSurd 1 0.

(** [re + im * i]. *)
Record complex : Type := mkC { re : surd; im : surd }.

Definition C0 : complex := mkC s0 s0.
Definition C1 : complex := mkC s1 s0.
Definition Ci : complex := mkC s0 s1.

Definition Cadd (x y : complex) : complex :=
  mkC (sadd (re x) (re y)) (sadd (im x) (im y)).
Definition Copp (x : complex) : complex :=
  mkC (sopp (re x)) (sopp (im x)).
Definition Csub (x y : complex) : complex := Cadd x (Copp y).
Definition Cmul (x y : complex) : complex :=
  mkC (sadd (smul (re x) (re y)) (sopp (smul (im x) (im y))))
      (sadd (smul (re x) (im y)) (smul (im x) (re y))).
Definition Cconj (x : complex) : complex :=
  mkC (re x) (sopp (im x)).

End Scalar.
Import Scalar.

(* ================================================================== *)
(** ** Dense matrices *)

Module Matrix.

(** Row-major: a list of rows. *)
Definition matrix : Type := list (list complex).

Definition nrows (A : matrix) : nat := List.length A.
Definition ncols (A : matrix) : nat :=
  match A with
  | [] => 0
  | r :: _ => List.length r
  end.

Definition column (j : nat) (A : matrix) : list complex :=
  map (fun r => nth j r C0) A.

Definition transpose (A : matrix) : matrix :=
  map (fun j => column j A) (seq 0 (ncols A)).

Fixpoint dot (u v : list complex) : complex :=
  match u, v with
  | a :: u', b :: v' => Cadd (Cmul a b) (dot u' v')
  | _, _ => C0
  end.

Definition mmul (A B : matrix) : matrix :=
  map (fun r => map (fun c => dot r c) (transpose B)) A.

Fixpoint zipWith {X : Type} (f : X -> X -> X) (u v : list X) : list X :=
  match u, v with
  | a :: u', b :: v' => f a b :: zipWith f u' v'
  | _, _ => []
  end.

Definition madd (A B : matrix) : matrix := zipWith (zipWith Cadd) A B.
Definition msub (A B : matrix) : matrix := zipWith (zipWith Csub) A B.
Definition adjoint (A : matrix) : matrix :=
  map (map Cconj) (transpose A).

(** Kronecker product. *)
Definition kron (A B : matrix) : matrix :=
  flat_map (fun ra =>
    map (fun rb => flat_map (fun a => map (Cmul a) rb) ra) B) A.

Definition eye (n : nat) : matrix :=
  map (fun i => map (fun j => if Nat.eqb i j then C1 else C0) (seq 0 n))
      (seq 0 n).

(** The column vector of length [N] with a single 1 at position [n]. *)
Definition unit_column (N n : nat) : matrix :=
  map (fun i => [if Nat.eqb i n then C1 else C0]) (seq 0 N).

End Matrix.
Import Matrix.

(* ================================================================== *)
(** ** Quantum objects *)

(** Modelled from the spec: the Operator of the data model and its algebra
    ([Qobj.py], which [gates.py] imports, is missing).  A quantum object is
    a complex matrix tagged with its dimension structure
    [dims = (row dims, column dims)]; [+] and [-] need equal structures, [*]
    needs the left operand's column structure to be the right operand's row
    structure, and a mismatch is a hard error. *)
Record Qobj : Type := mkQobj {
  data : matrix;
  dims : list nat * list nat
}.

Definition dims_eqb (d e : list nat) : bool :=
  if list_eq_dec Nat.eq_dec d e then true else false.

Definition Qobj_add (a b : Qobj) : result Qobj :=
  if dims_eqb (fst (dims a)) (fst (dims b))
     && dims_eqb (snd (dims a)) (snd (dims b))
  then Ok (mkQobj (madd (data a) (data b)) (dims a))
  else Err DimensionMismatch.

Definition Qobj_sub (a b : Qobj) : result Qobj :=
  if dims_eqb (fst (dims a)) (fst (dims b))
     && dims_eqb (snd (dims a)) (snd (dims b))
  then Ok (mkQobj (msub (data a) (data b)) (dims a))
  else Err DimensionMismatch.

Definition Qobj_mul (a b : Qobj) : result Qobj :=
  if dims_eqb (snd (dims a)) (fst (dims b))
  then Ok (mkQobj (mmul (data a) (data b)) (fst (dims a), snd (dims b)))
  else Err DimensionMismatch.

Definition Qobj_dag (a : Qobj) : Qobj :=
  mkQobj (adjoint (data a)) (snd (dims a), fst (dims a)).

(** [basis(N, n)]: the [n]-th Fock ket of an [N]-level system (called with
    [n < N] only). *)
Definition basis (N n : nat) : Qobj :=
  mkQobj (unit_column N n) ([N], [1%nat]).

(** [qeye(N)]. *)
Definition qeye (N : nat) : Qobj :=
  mkQobj (eye N) ([N], [N]).

Definition Qobj_kron (a b : Qobj) : Qobj :=
  mkQobj (kron (data a) (data b))
         (fst (dims a) ++ fst (dims b), snd (dims a) ++ snd (dims b)).

(** [tensor(list)]: Kronecker product from left to right; the dimension
    structures are concatenated.  An empty list is refused. *)
Definition tensor (qs : list Qobj) : result Qobj :=
  match qs with
  | [] => Err TypeError
  | q :: rest => Ok (fold_left Qobj_kron rest q)
  end.

(** Expressions: a Python expression either evaluates to a quantum object
    or raises; the operators propagate the exception of an operand. *)
Definition lift1 (f : Qobj -> Qobj) (a : result Qobj) : result Qobj :=
  (x <- a ;; Ok (f x))%result.
Definition lift2 (f : Qobj -> Qobj -> result Qobj) (a b : result Qobj)
  : result Qobj :=
  (x <- a ;; y <- b ;; f x y)%result.

Definition dag : result Qobj -> result Qobj := lift1 Qobj_dag.

(** [Qobj(Q)] applied to a quantum object copies it. *)
Definition Qobj_of (Q : result Qobj) : result Qobj := Q.

Declare Scope qobj_scope.
Delimit Scope qobj_scope with qobj.
Notation "a + b" := (lift2 Qobj_add a b) : qobj_scope.
Notation "a - b" := (lift2 Qobj_sub a b) : qobj_scope.
Notation "a * b" := (lift2 Qobj_mul a b) : qobj_scope.

(* ================================================================== *)
(** ** gates.py *)

Section Gates.

(** Which level of the qubit the letter [u] names is fixed in [qstate.py];
    [u_level = true] reads [u] as [basis(2,1)] and [d] as [basis(2,0)],
    [u_level = false] the other way round. *)
Variable u_level : bool.

Definition up : Qobj := basis 2 (if u_level then 1 else 0).
Definition dn : Qobj := basis 2 (if u_level then 0 else 1).

Definition is_u (c : ascii) : bool := Ascii.eqb c "u"%char.
Definition is_d (c : ascii) : bool := Ascii.eqb c "d"%char.

(** [qstate(string)] ([qstate.py] is missing): the basis ket the string
    labels, the tensor product of one single-qubit ket per letter; a string
    with a letter other than [u] and [d] is refused. *)
Definition qstate (s : string) : result Qobj :=
  let cs := list_ascii_of_string s in
  if forallb (fun c => is_u c || is_d c) cs
  then tensor (map (fun c => if is_u c then up else dn) cs)
  else Err TypeError.

Local Open Scope qobj_scope.

Definition cnot : result Qobj :=
  let uu := qstate "uu" in
  let ud := qstate "ud" in
  let du := qstate "du" in
  let dd := qstate "dd" in
  let Q := dd*dag(dd)+du*dag(du)+uu*dag(ud)+ud*dag(uu) in
  Qobj_of Q.

Definition fredkin : result Qobj :=
  let uuu := qstate "uuu" in
  let uud := qstate "uud" in
  let udu := qstate "udu" in
  let udd := qstate "udd" in
  let duu := qstate "duu" in
  let dud := qstate "dud" in
  let ddu := qstate "ddu" in
  let ddd := qstate "ddd" in
  let Q := ddd*dag(ddd) + ddu*dag(ddu) + dud*dag(dud) + duu*dag(duu)
           + udd*dag(udd) + uud*dag(udu) + udu*dag(uud) + uuu*dag(uuu) in
  Qobj_of Q.

Definition toffoli : result Qobj :=
  let uuu := qstate "uuu" in
  let uud := qstate "uud" in
  let udu := qstate "udu" in
  let udd := qstate "udd" in
  let duu := qstate "duu" in
  let dud := qstate "dud" in
  let ddu := qstate "ddu" in
  let ddd := qstate "ddd" in
  let Q := ddd*dag(ddd) + ddu*dag(ddu) + dud*dag(dud) + duu*dag(duu)
           + udd*dag(udd) + udu*dag(udu) + uuu*dag(uud) + uud*dag(uuu) in
  Qobj_of Q.

End Gates.

(** A gate [g] sends the basis ket labelled [s] to the one labelled [t]:
    [g * qstate(s)] evaluates, and to [qstate(t)]. *)
Definition maps_to (u_level : bool) (g : result Qobj) (s t : string) : Prop :=
  is_ok (qstate u_level t) = true /\
  (g * qstate u_level s)%qobj = qstate u_level t.

(* ================================================================== *)
(** ** Operators used by the processor tests *)

Definition Cm1 : complex := Copp C1.
Definition Cmi : complex := Copp Ci.

Definition sigmax : Qobj := mkQobj [[C0; C1]; [C1; C0]] ([2], [2])%nat.
Definition sigmay : Qobj := mkQobj [[C0; Cmi]; [Ci; C0]] ([2], [2])%nat.
Definition sigmaz : Qobj := mkQobj [[C1; C0]; [C0; Cm1]] ([2], [2])%nat.
Definition identity (N : nat) : Qobj := qeye N.

Definition Ceqb (x y : complex) : bool :=
  Qeq_bool (rat (re x)) (rat (re y)) && Qeq_bool (irr (re x)) (irr (re y))
  && Qeq_bool (rat (im x)) (rat (im y)) && Qeq_bool (irr (im x)) (irr (im y)).

Fixpoint list_eqb {X : Type} (eqb : X -> X -> bool) (u v : list X) : bool :=
  match u, v with
  | [], [] => true
  | x :: u', y :: v' => eqb x y && list_eqb eqb u' v'
  | _, _ => false
  end.

Definition Qobj_eqb (a b : Qobj) : bool :=
  list_eqb (list_eqb Ceqb) (data a) (data b)
  && dims_eqb (fst (dims a)) (fst (dims b))
  && dims_eqb (snd (dims a)) (snd (dims b)).

(** [assert_allclose(expected, actual)] on a value that may have raised. *)
Definition allclose (expected actual : result Qobj) : bool :=
  match expected, actual with
  | Ok a, Ok b => Qobj_eqb a b
  | _, _ => false
  end.

(* ================================================================== *)
(** ** The control processor: pulses *)

(** The processor ([qutip.qip.device.Processor]) and its pulses
    ([qutip.qip.pulse.Pulse]) are driven by [tests/test_processor.py] but
    their modules are not part of the sources at hand.  The definitions of
    this part are therefore modelled from the specification, and checked
    against what the test file does with them. *)

Inductive SplineKind : Type := step_func | cubic.

(** Modelled from the spec: the Pulse record of the data model (the Pulse
    class is missing).  Times and coefficients are kept as exact rationals;
    a pulse that has not been given a grid yet has empty sequences. *)
Record Pulse : Type := mkPulse {
  operator : option Qobj;
  targets : option (list nat);
  tlist : list Q;
  coeff : list Q;
  pulse_spline_kind : SplineKind
}.

(* ================================================================== *)
(** ** Operator embedding *)

Definition prod_dims (ds : list nat) : nat := fold_right Nat.mul 1%nat ds.

(** Mixed-radix digits of a basis index, most significant subsystem first. *)
Fixpoint digits (ds : list nat) (i : nat) : list nat :=
  match ds with
  | [] => []
  | d :: ds' =>
      ((i / prod_dims ds') mod d)%nat :: digits ds' (i mod prod_dims ds')
  end.

Definition undigits (ds xs : list nat) : nat :=
  fold_left (fun acc dx => (acc * fst dx + snd dx)%nat) (combine ds xs) 0%nat.

(** Modelled from the spec: [embed(local_operator, target_indices,
    full_dims)] of section 4.1 (the operator algebra is missing): the local
    operator acts on the target subsystems and the identity on every other
    one; the size of the local operator must be the product of the target
    dimensions. *)
Definition embed (local_operator : Qobj) (target_indices : list nat)
    (full_dims : list nat) : result Qobj :=
  let tdims := map (fun t => nth t full_dims 0%nat) target_indices in
  if negb (Nat.eqb (nrows (data local_operator)) (prod_dims tdims))
  then Err DimensionMismatch
  else
    let D := prod_dims full_dims in
    let others :=
      filter (fun k => negb (existsb (Nat.eqb k) target_indices))
             (seq 0 (List.length full_dims)) in
    let local (x : list nat) : nat :=
      undigits tdims (map (fun t => nth t x 0%nat) target_indices) in
    let entry (i j : nat) : complex :=
      let xi := digits full_dims i in
      let xj := digits full_dims j in
      if forallb (fun k => Nat.eqb (nth k xi 0%nat) (nth k xj 0%nat)) others
      then nth (local xj) (nth (local xi) (data local_operator) []) C0
      else C0 in
    Ok (mkQobj (map (fun i => map (entry i) (seq 0 D)) (seq 0 D))
               (full_dims, full_dims)).

(** Modelled from the spec: [cyclic_targets] of section 4.1 (missing): the
    rotations of a target pattern along the chain, [stride] sites apart. *)
Definition cyclic_targets (base_targets : list nat) (full_dims : list nat)
    (stride : nat) : list (list nat) :=
  let n := List.length full_dims in
  map (fun s => map (fun t => ((t + s * stride) mod n)%nat) base_targets)
      (seq 0 (match stride with O => 1 | _ => n / stride end)%nat).

(* ================================================================== *)
(** ** The control processor: the pulse list *)

(** Modelled from the spec: the processor's state as far as the pulse list
    is concerned (the Processor class is missing). *)
Record Processor : Type := mkProcessor {
  proc_N : nat;
  proc_dims : list nat;
  spline_kind : SplineKind;
  pulses : list Pulse
}.

(** Modelled from the spec: the processor as the tests create it,
    [Processor(N, dims=None, spline_kind="step_func")] (the constructor is
    missing): qubits unless [dims] says otherwise, and no pulses yet. *)
Definition Processor_init (N : nat) (dims : option (list nat))
    (kind : SplineKind) : Processor :=
  mkProcessor N
    (match dims with Some ds => ds | None => repeat 2%nat N end)
    kind [].

(** Modelled from the spec: [add_control(operator, targets?, cyclic?)]
    (missing).  One pulse is appended for the operator, or one per rotation
    of its targets; without [targets] the operator sits on the leading
    subsystems, as [test_modify_ctrls] observes. *)
Definition add_control (proc : Processor) (qobj : Qobj)
    (targets : option (list nat)) (cyclic_permutation : bool) : Processor :=
  let base :=
    match targets with
    | Some ts => ts
    | None => seq 0 (List.length (fst (dims qobj)))
    end in
  let new_pulse (ts : list nat) : Pulse :=
    mkPulse (Some qobj) (Some ts) [] [] (spline_kind proc) in
  let added :=
    if cyclic_permutation
    then map new_pulse (cyclic_targets base (proc_dims proc) 1)
    else [new_pulse base] in
  mkProcessor (proc_N proc) (proc_dims proc) (spline_kind proc)
              (pulses proc ++ added).

(** The elements of [l] from position [i] on whose position is not listed
    in [indices]. *)
Fixpoint remove_at {X : Type} (indices : list nat) (i : nat) (l : list X)
  : list X :=
  match l with
  | [] => []
  | x :: l' =>
      if existsb (Nat.eqb i) indices
      then remove_at indices (S i) l'
      else x :: remove_at indices (S i) l'
  end.

(** Modelled from the spec: [remove_pulse(indices)] (missing): the pulses at
    the listed positions leave the list, the others keep their order; a
    position past the end of the list is an [IndexError]. *)
Definition remove_pulse (proc : Processor) (indices : list nat)
  : result Processor :=
  if forallb (fun i => Nat.ltb i (List.length (pulses proc))) indices
  then Ok (mkProcessor (proc_N proc) (proc_dims proc) (spline_kind proc)
                       (remove_at indices 0 (pulses proc)))
  else Err IndexError.

Fixpoint sequence {X : Type} (ms : list (result X)) : result (list X) :=
  match ms with
  | [] => Ok []
  | m :: ms' => (x <- m ;; xs <- sequence ms' ;; Ok (x :: xs))%result
  end.

(** Modelled from the spec: the operator of a pulse on the full space
    ([pulse.get_ideal_qobj(dims)], missing), by [embed]; a pulse without
    operator only anchors a time grid and contributes the zero operator. *)
Definition get_ideal_qobj (full_dims : list nat) (p : Pulse) : result Qobj :=
  match operator p, targets p with
  | Some q, Some ts => embed q ts full_dims
  | Some q, None => embed q (seq 0 (List.length (fst (dims q)))) full_dims
  | None, _ =>
      Ok (mkQobj (map (fun _ => map (fun _ => C0) (seq 0 (prod_dims full_dims)))
                      (seq 0 (prod_dims full_dims)))
                 (full_dims, full_dims))
  end.

(** Modelled from the spec: [proc.ctrls] as the tests read it (missing): the
    control operators on the full space, in the order of the pulse list. *)
Definition ctrls (proc : Processor) : result (list Qobj) :=
  sequence (map (get_ideal_qobj (proc_dims proc)) (pulses proc)).

Definition ctrls_at (proc : Processor) (i : nat) : result Qobj :=
  (cs <- ctrls proc ;;
   match nth_error cs i with
   | Some q => Ok q
   | None => Err IndexError
   end)%result.

(** Calls that change the pulse list, and their effect in sequence. *)
Inductive call : Type :=
  | call_add_control (qobj : Qobj) (targets : option (list nat))
                     (cyclic_permutation : bool)
  | call_remove_pulse (indices : list nat).

Fixpoint run_calls (proc : Processor) (cs : list call) : result Processor :=
  match cs with
  | [] => Ok proc
  | call_add_control q ts cyc :: cs' => run_calls (add_control proc q ts cyc) cs'
  | call_remove_pulse ix :: cs' =>
      (proc' <- remove_pulse proc ix ;; run_calls proc' cs')%result
  end.

(** A removal that only names positions past the first [n], which is where
    pulses added later are. *)
Definition removes_added_only (n : nat) (c : call) : bool :=
  match c with
  | call_add_control _ _ _ => true
  | call_remove_pulse ix => forallb (fun i => Nat.leb n i) ix
  end.

(* ================================================================== *)
(** ** tests/test_processor.py *)

(** [test_modify_ctrls], with the value of every assertion it makes. *)
Definition test_modify_ctrls : result (list bool) :=
  (let N := 2%nat in
   let proc := Processor_init N None step_func in
   let proc := add_control proc sigmaz None false in
   let proc := add_control proc sigmax None true in
   cs <- ctrls proc ;;
   let a1 := Nat.eqb (List.length cs) 3 in
   let a2 := allclose (tensor [sigmax; identity 2]) (ctrls_at proc 1) in
   let a3 := allclose (tensor [identity 2; sigmax]) (ctrls_at proc 2) in
   let proc := add_control proc sigmay (Some [1%nat]) false in
   let a4 := allclose (tensor [identity 2; sigmay]) (ctrls_at proc 3) in
   proc <- remove_pulse proc [0; 1; 2]%nat ;;
   let a5 := allclose (tensor [identity 2; sigmay]) (ctrls_at proc 0) in
   proc <- remove_pulse proc [0%nat] ;;
   cs <- ctrls proc ;;
   let a6 := Nat.eqb (List.length cs) 0 in
   Ok [a1; a2; a3; a4; a5; a6])%result.

(** An interleaving in the style of [test_modify_ctrls] on a processor that
    already holds a control: two cyclic controls are added, one of them is
    removed, and a third control is added. *)
Definition interleaved_proc : Processor :=
  add_control (Processor_init 2 None step_func) sigmaz None false.

Definition interleaved_calls : list call :=
  [ call_add_control sigmax None true;
    call_remove_pulse [2%nat];
    call_add_control sigmay (Some [1%nat]) false ].

(** The processor these calls end on, written out: the original control
    and two added ones. *)
Definition interleaved_result : Processor :=
  mkProcessor 2 [2; 2]%nat step_func
    [mkPulse (Some sigmaz) (Some [0%nat]) [] [] step_func;
     mkPulse (Some sigmax) (Some [0%nat]) [] [] step_func;
     mkPulse (Some sigmay) (Some [1%nat]) [] [] step_func].

(* ================================================================== *)
(** ** gates.py in binary64 *)

(** The entries of a quantum object are complex128 values: two binary64
    numbers.  This part repeats the gate constructors over the floating
    point numbers of the machine, with every operation rounded as IEEE 754
    prescribes, [sqrt(2)] included.

    Each entry of a product computed here is either a single product of
    entries or, for [snot], the sum of two; such a sum does not depend on
    the order of accumulation, nor on whether zero terms are skipped, as a
    sparse matrix product does. *)
Declare Scope qobj64_scope.
Delimit Scope qobj64_scope with qobj64.

Module Binary64.

Record complex128 : Type := mkC128 { re : float; im : float }.

Definition C0 : complex128 := mkC128 0 0.
Definition C1 : complex128 := mkC128 1 0.

Definition Cadd (x y : complex128) : complex128 :=
  mkC128 (re x + re y) (im x + im y).
Definition Csub (x y : complex128) : complex128 :=
  mkC128 (re x - re y) (im x - im y).
Definition Cmul (x y : complex128) : complex128 :=
  mkC128 (re x * re y - im x * im y) (re x * im y + im x * re y).
Definition Cconj (x : complex128) : complex128 :=
  mkC128 (re x) (- im x).
(** Division of an entry by a real scalar. *)
Definition Cdiv (x : complex128) (s : float) : complex128 :=
  mkC128 (re x / s) (im x / s).
(** Multiplication of an entry by a real scalar. *)
Definition Cscale (s : float) (x : complex128) : complex128 :=
  mkC128 (s * re x) (s * im x).

(** Equality of two entries as numbers ([==] of Python): the two zeros are
    equal, a NaN is equal to nothing. *)
Definition Ceqb (x y : complex128) : bool :=
  (re x =? re y)%float && (im x =? im y)%float.

Definition matrix : Type := list (list complex128).

Definition nrows (A : matrix) : nat := List.length A.
Definition ncols (A : matrix) : nat :=
  match A with
  | [] => 0%nat
  | r :: _ => List.length r
  end.

Definition column (j : nat) (A : matrix) : list complex128 :=
  map (fun r => nth j r C0) A.

Definition transpose (A : matrix) : matrix :=
  map (fun j => column j A) (seq 0 (ncols A)).

Fixpoint dot (u v : list complex128) : complex128 :=
  match u, v with
  | a :: u', b :: v' => Cadd (Cmul a b) (dot u' v')
  | _, _ => C0
  end.

Definition mmul (A B : matrix) : matrix :=
  map (fun r => map (fun c => dot r c) (transpose B)) A.

Definition madd (A B : matrix) : matrix := zipWith (zipWith Cadd) A B.
Definition msub (A B : matrix) : matrix := zipWith (zipWith Csub) A B.
Definition mdiv (A : matrix) (s : float) : matrix :=
  map (map (fun a => Cdiv a s)) A.
Definition mscale (s : float) (A : matrix) : matrix :=
  map (map (Cscale s)) A.
Definition adjoint (A : matrix) : matrix :=
  map (map Cconj) (transpose A).

Definition kron (A B : matrix) : matrix :=
  flat_map (fun ra =>
    map (fun rb => flat_map (fun a => map (Cmul a) rb) ra) B) A.

Definition eye (n : nat) : matrix :=
  map (fun i => map (fun j => if Nat.eqb i j then C1 else C0) (seq 0 n))
      (seq 0 n).

Definition unit_column (N n : nat) : matrix :=
  map (fun i => [if Nat.eqb i n then C1 else C0]) (seq 0 N).

(** Modelled from the spec: the Operator of the data model and its algebra
    ([Qobj.py], which [gates.py] imports, is missing), as for the exact
    entries above. *)
Record Qobj : Type := mkQobj {
  data : matrix;
  dims : list nat * list nat
}.

Definition Qobj_add (a b : Qobj) : result Qobj :=
  if dims_eqb (fst (dims a)) (fst (dims b))
     && dims_eqb (snd (dims a)) (snd (dims b))
  then Ok (mkQobj (madd (data a) (data b)) (dims a))
  else Err DimensionMismatch.

Definition Qobj_sub (a b : Qobj) : result Qobj :=
  if dims_eqb (fst (dims a)) (fst (dims b))
     && dims_eqb (snd (dims a)) (snd (dims b))
  then Ok (mkQobj (msub (data a) (data b)) (dims a))
  else Err DimensionMismatch.

Definition Qobj_mul (a b : Qobj) : result Qobj :=
  if dims_eqb (snd (dims a)) (fst (dims b))
  then Ok (mkQobj (mmul (data a) (data b)) (fst (dims a), snd (dims b)))
  else Err DimensionMismatch.

Definition Qobj_div (a : Qobj) (s : float) : Qobj :=
  mkQobj (mdiv (data a) s) (dims a).

(** [Q * (1. / s)], the other way a division by a scalar can be carried
    out. *)
Definition Qobj_times_reciprocal (a : Qobj) (s : float) : Qobj :=
  mkQobj (mscale (1 / s) (data a)) (dims a).

Definition Qobj_scale (s : float) (a : Qobj) : Qobj :=
  mkQobj (mscale s (data a)) (dims a).

Definition Qobj_dag (a : Qobj) : Qobj :=
  mkQobj (adjoint (data a)) (snd (dims a), fst (dims a)).

Definition basis (N n : nat) : Qobj :=
  mkQobj (unit_column N n) ([N], [1%nat]).

Definition qeye (N : nat) : Qobj :=
  mkQobj (eye N) ([N], [N]).

Definition Qobj_kron (a b : Qobj) : Qobj :=
  mkQobj (kron (data a) (data b))
         (fst (dims a) ++ fst (dims b), snd (dims a) ++ snd (dims b)).

Definition tensor (qs : list Qobj) : result Qobj :=
  match qs with
  | [] => Err TypeError
  | q :: rest => Ok (fold_left Qobj_kron rest q)
  end.

Definition identity_like (a : Qobj) : result Qobj :=
  tensor (map qeye (fst (dims a))).

Definition lift1 (f : Qobj -> Qobj) (a : result Qobj) : result Qobj :=
  (x <- a ;; Ok (f x))%result.
Definition lift2 (f : Qobj -> Qobj -> result Qobj) (a b : result Qobj)
  : result Qobj :=
  (x <- a ;; y <- b ;; f x y)%result.

Definition dag : result Qobj -> result Qobj := lift1 Qobj_dag.
Definition Qobj_of (Q : result Qobj) : result Qobj := Q.

Notation "a + b" := (lift2 Qobj_add a b) : qobj64_scope.
Notation "a - b" := (lift2 Qobj_sub a b) : qobj64_scope.
Notation "a * b" := (lift2 Qobj_mul a b) : qobj64_scope.
Notation "a / s" := (lift1 (fun x => Qobj_div x s) a) : qobj64_scope.

(** [sqrt(2)]: the binary64 number nearest to the square root of 2,
    1.4142135623730951. *)
Definition sqrt2 : float := PrimFloat.sqrt 2.

Section Gates.

Variable u_level : bool.

Definition up : Qobj := basis 2 (if u_level then 1 else 0).
Definition dn : Qobj := basis 2 (if u_level then 0 else 1).

Definition qstate (s : string) : result Qobj :=
  let cs := list_ascii_of_string s in
  if forallb (fun c => is_u c || is_d c) cs
  then tensor (map (fun c => if is_u c then up else dn) cs)
  else Err TypeError.

Local Open Scope qobj64_scope.

Definition cnot : result Qobj :=
  let uu := qstate "uu" in
  let ud := qstate "ud" in
  let du := qstate "du" in
  let dd := qstate "dd" in
  let Q := dd*dag(dd)+du*dag(du)+uu*dag(ud)+ud*dag(uu) in
  Qobj_of Q.

Definition snot : result Qobj :=
  let u := qstate "u" in
  let d := qstate "d" in
  let Q := ((u+d)*dag(d)+(d-u)*dag(u))/sqrt2 in
  Qobj_of Q.

(** [snot()] with the division carried out as a multiplication by
    [1. / sqrt(2)]. *)
Definition snot_by_reciprocal : result Qobj :=
  let u := qstate "u" in
  let d := qstate "d" in
  lift1 (fun x => Qobj_times_reciprocal x sqrt2)
        ((u+d)*dag(d)+(d-u)*dag(u)).

Definition fredkin : result Qobj :=
  let uuu := qstate "uuu" in
  let uud := qstate "uud" in
  let udu := qstate "udu" in
  let udd := qstate "udd" in
  let duu := qstate "duu" in
  let dud := qstate "dud" in
  let ddu := qstate "ddu" in
  let ddd := qstate "ddd" in
  let Q := ddd*dag(ddd) + ddu*dag(ddu) + dud*dag(dud) + duu*dag(duu)
           + udd*dag(udd) + uud*dag(udu) + udu*dag(uud) + uuu*dag(uuu) in
  Qobj_of Q.

Definition toffoli : result Qobj :=
  let uuu := qstate "uuu" in
  let uud := qstate "uud" in
  let udu := qstate "udu" in
  let udd := qstate "udd" in
  let duu := qstate "duu" in
  let dud := qstate "dud" in
  let ddu := qstate "ddu" in
  let ddd := qstate "ddd" in
  let Q := ddd*dag(ddd) + ddu*dag(ddu) + dud*dag(dud) + duu*dag(duu)
           + udd*dag(udd) + udu*dag(udu) + uuu*dag(uud) + uud*dag(uuu) in
  Qobj_of Q.

End Gates.

(** Two quantum objects are equal: the same dimension structure and equal
    entries, as numbers. *)
Definition Qobj_eqb (a b : Qobj) : bool :=
  list_eqb (list_eqb Ceqb) (data a) (data b)
  && dims_eqb (fst (dims a)) (fst (dims b))
  && dims_eqb (snd (dims a)) (snd (dims b)).

(** Both expressions evaluate, and to equal quantum objects. *)
Definition equal (x y : result Qobj) : bool :=
  match x, y with
  | Ok a, Ok b => Qobj_eqb a b
  | _, _ => false
  end.

Definition identity_on (g : result Qobj) : result Qobj :=
  (G <- g ;; identity_like G)%result.

(** [c] times the identity on the space of [g]. *)
Definition scaled_identity_on (c : float) (g : result Qobj) : result Qobj :=
  lift1 (Qobj_scale c) (identity_on g).

(** [G * G] is the identity on the space of [G]. *)
Definition self_inverse (g : result Qobj) : bool :=
  equal (g * g)%qobj64 (identity_on g).

Definition hermitian (g : result Qobj) : bool :=
  equal (dag g) g.

Definition unitary (g : result Qobj) : bool :=
  equal (dag g * g)%qobj64 (identity_on g)
  && equal (g * dag g)%qobj64 (identity_on g).

(** The largest distance, over both parts of all entries, between two
    quantum objects of the same shape. *)
Definition max_abs_diff (x y : result Qobj) : result float :=
  (a <- x ;; b <- y ;;
   let d (p q : complex128) : float :=
     let dr := abs (re p - re q) in
     let di := abs (im p - im q) in
     if (dr <? di)%float then di else dr in
   let row_max (r s : list complex128) : float :=
     fold_left (fun m pq => let v := d (fst pq) (snd pq) in
                            if (m <? v)%float then v else m)
               (combine r s) 0%float in
   Ok (fold_left (fun m rs => let v := row_max (fst rs) (snd rs) in
                              if (m <? v)%float then v else m)
                 (combine (data a) (data b)) 0%float))%result.

(** 1 - 2^-52, the second binary64 number below 1:
    0.99999999999999978. *)
Definition one_minus_2ulp : float := (1 - 0x1p-52)%float.

End Binary64.

Notation "a + b" := (Binary64.lift2 Binary64.Qobj_add a b) : qobj64_scope.
Notation "a - b" := (Binary64.lift2 Binary64.Qobj_sub a b) : qobj64_scope.
Notation "a * b" := (Binary64.lift2 Binary64.Qobj_mul a b) : qobj64_scope.
Notation "a / s" := (Binary64.lift1 (fun x => Binary64.Qobj_div x s) a)
  : qobj64_scope.

(* ================================================================== *)
(** ** States and products of gates *)

(** Modelled from the spec: the scalar multiple of an operator ([Qobj.py]
    is missing): [c * Q] multiplies every entry of [Q] by [c]. *)
Definition Qobj_scale (c : complex) (a : Qobj) : Qobj :=
  mkQobj (map (map (Cmul c)) (data a)) (dims a).

Notation "c .* x" := (lift1 (Qobj_scale c) x)
  (at level 40, left associativity) : qobj_scope.

(** [tensor([...])] of operands that may have raised. *)
Definition tensor_of (xs : list (result Qobj)) : result Qobj :=
  (qs <- sequence xs ;; tensor qs)%result.

(** The general state of two and of three qubits: one amplitude per basis
    ket, each named by the label of its ket. *)
Definition state2 (u_level : bool) (a_uu a_ud a_du a_dd : complex)
  : result Qobj :=
  (a_uu .* qstate u_level "uu" + a_ud .* qstate u_level "ud"
   + a_du .* qstate u_level "du" + a_dd .* qstate u_level "dd")%qobj.

Definition state3 (u_level : bool)
    (a_uuu a_uud a_udu a_udd a_duu a_dud a_ddu a_ddd : complex)
  : result Qobj :=
  (a_uuu .* qstate u_level "uuu" + a_uud .* qstate u_level "uud"
   + a_udu .* qstate u_level "udu" + a_udd .* qstate u_level "udd"
   + a_duu .* qstate u_level "duu" + a_dud .* qstate u_level "dud"
   + a_ddu .* qstate u_level "ddu" + a_ddd .* qstate u_level "ddd")%qobj.

(** A scalar with its four rationals in lowest terms: what every scalar
    operation returns. *)
Definition snorm (x : surd) : surd := mkSurd (Qred (rat x)) (Qred (irr x)).
Definition Cnorm (x : complex) : complex := mkC (snorm (re x)) (snorm (im x)).

(* ================================================================== *)
(** * Properties of the gate constructors *)

Ltac by_evaluation := vm_compute; reflexivity.
Ltac split_conj := repeat match goal with |- _ /\ _ => split end.

Lemma list_eqb_refl {X : Type} (eqb : X -> X -> bool) (l : list X) :
  (forall x, eqb x x = true) -> list_eqb eqb l l = true.
Proof.
  intros Hrefl. induction l as [| x l IH]; simpl.
  - reflexivity.
  - now rewrite Hrefl, IH.
Qed.

Lemma Ceqb_refl (x : complex) : Ceqb x x = true.
Proof.
  unfold Ceqb. repeat rewrite andb_true_iff.
  repeat split; apply Qeq_bool_iff; reflexivity.
Qed.

Lemma Qobj_eqb_refl (a : Qobj) : Qobj_eqb a a = true.
Proof.
  unfold Qobj_eqb, dims_eqb.
  rewrite list_eqb_refl by (intros r; apply list_eqb_refl, Ceqb_refl).
  destruct (list_eq_dec Nat.eq_dec (fst (dims a)) (fst (dims a)));
    [| contradiction].
  destruct (list_eq_dec Nat.eq_dec (snd (dims a)) (snd (dims a)));
    [reflexivity | contradiction].
Qed.

(** Two results that [allclose] tells apart are different. *)
Lemma allclose_false_neq (x y : result Qobj) :
  is_ok x = true -> allclose x y = false -> x <> y.
Proof.
  intros Hok Hclose Heq. subst y.
  destruct x as [a | e]; [| discriminate].
  simpl in Hclose. rewrite Qobj_eqb_refl in Hclose. discriminate.
Qed.

(** C1.  [toffoli()] exchanges the basis kets [uuu] and [uud] (which are
    different kets) and leaves each of [udu], [udd], [duu], [dud], [ddu] and
    [ddd] where it is, whichever level the letter [u] names. *)
Theorem toffoli_truth_table (u_level : bool) :
  let T := toffoli u_level in
  maps_to u_level T "uuu" "uud" /\
  maps_to u_level T "uud" "uuu" /\
  maps_to u_level T "udu" "udu" /\
  maps_to u_level T "udd" "udd" /\
  maps_to u_level T "duu" "duu" /\
  maps_to u_level T "dud" "dud" /\
  maps_to u_level T "ddu" "ddu" /\
  maps_to u_level T "ddd" "ddd" /\
  qstate u_level "uuu" <> qstate u_level "uud".
Proof.
  destruct u_level; cbv zeta; unfold maps_to;
    split_conj;
    first [by_evaluation | apply allclose_false_neq; by_evaluation].
Qed.

(** [cnot()] exchanges [uu] and [ud] and leaves [du] and [dd] where they
    are: the first letter is the control. *)
Theorem cnot_truth_table (u_level : bool) :
  let G := cnot u_level in
  maps_to u_level G "uu" "ud" /\
  maps_to u_level G "ud" "uu" /\
  maps_to u_level G "du" "du" /\
  maps_to u_level G "dd" "dd".
Proof.
  destruct u_level; cbv zeta; unfold maps_to; split_conj; by_evaluation.
Qed.

(** [fredkin()] exchanges [uud] and [udu] and leaves the other six basis
    kets where they are. *)
Theorem fredkin_truth_table (u_level : bool) :
  let G := fredkin u_level in
  maps_to u_level G "uud" "udu" /\
  maps_to u_level G "udu" "uud" /\
  maps_to u_level G "uuu" "uuu" /\
  maps_to u_level G "udd" "udd" /\
  maps_to u_level G "duu" "duu" /\
  maps_to u_level G "dud" "dud" /\
  maps_to u_level G "ddu" "ddu" /\
  maps_to u_level G "ddd" "ddd".
Proof.
  destruct u_level; cbv zeta; unfold maps_to; split_conj; by_evaluation.
Qed.

(** [snot()] sends [d] to [(u + d) / sqrt(2)] and [u] to
    [(d - u) / sqrt(2)], in binary64. *)
Theorem snot_action (u_level : bool) :
  let u := Binary64.qstate u_level "u" in
  let d := Binary64.qstate u_level "d" in
  is_ok (Binary64.snot u_level) = true /\
  is_ok ((u + d) / Binary64.sqrt2)%qobj64 = true /\
  is_ok ((d - u) / Binary64.sqrt2)%qobj64 = true /\
  (Binary64.snot u_level * d = (u + d) / Binary64.sqrt2)%qobj64 /\
  (Binary64.snot u_level * u = (d - u) / Binary64.sqrt2)%qobj64.
Proof.
  destruct u_level; cbv zeta; split_conj; by_evaluation.
Qed.

(** Each constructor returns an operator on the qubits it names: two for
    [cnot], one for [snot], three for [fredkin] and [toffoli]. *)
Theorem gates_dims (u_level : bool) :
  (G <- cnot u_level ;; Ok (dims G))%result = Ok ([2; 2], [2; 2])%nat /\
  (G <- Binary64.snot u_level ;; Ok (Binary64.dims G))%result
    = Ok ([2], [2])%nat /\
  (G <- fredkin u_level ;; Ok (dims G))%result
    = Ok ([2; 2; 2], [2; 2; 2])%nat /\
  (G <- toffoli u_level ;; Ok (dims G))%result
    = Ok ([2; 2; 2], [2; 2; 2])%nat.
Proof.
  destruct u_level; split_conj; by_evaluation.
Qed.

(* ================================================================== *)
(** * The gates and their squares, in binary64 *)

(** [snot()] is the matrix with entries [1 / sqrt(2)] and, in the place of
    [u u], [-1 / sqrt(2)]; the entry is 0.70710678118654746.  The value is
    the same whether the division by [sqrt(2)] is carried out entry by
    entry or as a multiplication by [1. / sqrt(2)]. *)
Lemma snot_entries (u_level : bool) :
  let h := (1 / Binary64.sqrt2)%float in
  let mh := (- h)%float in
  let c (x : float) := Binary64.mkC128 x 0 in
  Binary64.equal (Binary64.snot u_level)
    (Ok (Binary64.mkQobj
           (if u_level then [[c h; c h]; [c h; c mh]]
            else [[c mh; c h]; [c h; c h]])
           ([2], [2])%nat)) = true /\
  Binary64.equal (Binary64.snot u_level)
                 (Binary64.snot_by_reciprocal u_level) = true.
Proof. destruct u_level; cbv zeta; split; by_evaluation. Qed.

(** C10, the case that fails.  In binary64 [snot() * snot()] evaluates, and
    not to the identity: both diagonal entries are 1 - 2^-52. *)
Lemma snot_square_not_identity :
  let c (x : float) := Binary64.mkC128 x 0 in
  let square u := (Binary64.snot u * Binary64.snot u)%qobj64 in
  Binary64.self_inverse (Binary64.snot true) = false /\
  Binary64.self_inverse (Binary64.snot false) = false /\
  Binary64.equal (square true)
    (Ok (Binary64.mkQobj
           [[c Binary64.one_minus_2ulp; c 0%float];
            [c 0%float; c Binary64.one_minus_2ulp]]
           ([2], [2])%nat)) = true /\
  Binary64.equal (square false) (square true) = true /\
  (Binary64.one_minus_2ulp <? 1)%float = true.
Proof. cbv zeta. split_conj; by_evaluation. Qed.

(** C10, amended.  In binary64, each of [cnot()], [fredkin()] and
    [toffoli()] returns an operator [G] that is its own inverse: [G * G] is
    the identity on its space, [G] is Hermitian and unitary.  [snot()]
    returns a Hermitian [G] for which [G * G], [dag(G) * G] and
    [G * dag(G)] are all (1 - 2^-52) times the identity: they differ from
    the identity by 2^-52 on the diagonal and nowhere else. *)
Theorem gates_self_inverse_binary64 (u_level : bool) :
  let cnot := Binary64.cnot u_level in
  let fredkin := Binary64.fredkin u_level in
  let toffoli := Binary64.toffoli u_level in
  let snot := Binary64.snot u_level in
  let nearly_one := Binary64.scaled_identity_on Binary64.one_minus_2ulp snot in
  (Binary64.self_inverse cnot = true /\ Binary64.hermitian cnot = true
   /\ Binary64.unitary cnot = true) /\
  (Binary64.self_inverse fredkin = true /\ Binary64.hermitian fredkin = true
   /\ Binary64.unitary fredkin = true) /\
  (Binary64.self_inverse toffoli = true /\ Binary64.hermitian toffoli = true
   /\ Binary64.unitary toffoli = true) /\
  (Binary64.hermitian snot = true /\
   Binary64.equal (snot * snot)%qobj64 nearly_one = true /\
   Binary64.equal (Binary64.dag snot * snot)%qobj64 nearly_one = true /\
   Binary64.equal (snot * Binary64.dag snot)%qobj64 nearly_one = true /\
   Binary64.max_abs_diff (snot * snot)%qobj64 (Binary64.identity_on snot)
     = Ok 0x1p-52%float).
Proof.
  destruct u_level; cbv zeta; split_conj; by_evaluation.
Qed.

(* ================================================================== *)
(** * The gates on arbitrary states *)

(** ** Scalar arithmetic with 0 and 1 *)

Lemma complex_eq (a b c d a' b' c' d' : Q) :
  a = a' -> b = b' -> c = c' -> d = d' ->
  mkC (mkSurd a b) (mkSurd c d) = mkC (mkSurd a' b') (mkSurd c' d').
Proof. intros; subst; reflexivity. Qed.

Lemma Qred_eq_const (x c : Q) : x == c -> Qred c = c -> Qred x = c.
Proof. intros H Hc. rewrite <- Hc. apply Qred_complete, H. Qed.

(** Two scalars built by the scalar operations are equal as soon as their
    rationals are equal as fractions: unfold the operations, drop the
    reductions to lowest terms, and decide the equation in the ring Q. *)
Ltac scalar_brute :=
  cbv [Cadd Cmul Csub Copp Cconj Cnorm C0 C1 Ci s0 s1 sadd smul sopp snorm
       qadd qmul qopp re im rat irr];
  apply complex_eq;
  (first [ apply Qred_complete | apply Qred_eq_const; [| reflexivity] ]);
  try (rewrite_strat (bottomup Qred_correct));
  ring.

Lemma Cmul_C1_r (c : complex) : Cmul c C1 = Cnorm c.
Proof. destruct c as [[a b] [c d]]. scalar_brute. Qed.

Lemma Cmul_C0_r (c : complex) : Cmul c C0 = C0.
Proof. destruct c as [[a b] [c d]]. scalar_brute. Qed.

Lemma Cmul_C1_l (c : complex) : Cmul C1 c = Cnorm c.
Proof. destruct c as [[a b] [c d]]. scalar_brute. Qed.

Lemma Cmul_C0_l (c : complex) : Cmul C0 c = C0.
Proof. destruct c as [[a b] [c d]]. scalar_brute. Qed.

Lemma Cadd_C0_r (c : complex) : Cadd c C0 = Cnorm c.
Proof. destruct c as [[a b] [c d]]. scalar_brute. Qed.

Lemma Cadd_C0_l (c : complex) : Cadd C0 c = Cnorm c.
Proof. destruct c as [[a b] [c d]]. scalar_brute. Qed.

Lemma Cnorm_idem (c : complex) : Cnorm (Cnorm c) = Cnorm c.
Proof. destruct c as [[a b] [c d]]. scalar_brute. Qed.

Lemma Cnorm_C0 : Cnorm C0 = C0.
Proof. reflexivity. Qed.

Ltac scalar_normalise :=
  repeat first
    [ rewrite Cmul_C1_r | rewrite Cmul_C0_r | rewrite Cmul_C1_l
    | rewrite Cmul_C0_l | rewrite Cadd_C0_r | rewrite Cadd_C0_l
    | rewrite Cnorm_idem | rewrite Cnorm_C0 ].

(** ** Evaluating the closed parts of a goal *)

(** Replace a closed term by its value, through a proved equation. *)
Ltac eval_closed t :=
  let v := eval vm_compute in t in
  let H := fresh in
  assert (H : t = v) by (vm_compute; reflexivity);
  rewrite !H; clear H.

Ltac fold_scalars :=
  change (mkC (mkSurd 0 0) (mkSurd 0 0)) with C0 in *;
  change (mkC (mkSurd 1 0) (mkSurd 0 0)) with C1 in *.

Ltac eval_kets2 u :=
  eval_closed (qstate u "uu"); eval_closed (qstate u "ud");
  eval_closed (qstate u "du"); eval_closed (qstate u "dd").

Ltac eval_kets3 u :=
  eval_closed (qstate u "uuu"); eval_closed (qstate u "uud");
  eval_closed (qstate u "udu"); eval_closed (qstate u "udd");
  eval_closed (qstate u "duu"); eval_closed (qstate u "dud");
  eval_closed (qstate u "ddu"); eval_closed (qstate u "ddd").

(** What is left once the gate and the basis kets are values: products and
    sums of the amplitudes with 0 and 1. *)
Ltac amplitudes :=
  fold_scalars;
  cbv -[Cadd Cmul Csub Cconj C0 C1];
  scalar_normalise.

(** ** Action on superpositions *)

(** [cnot()] on the general two-qubit state: the amplitudes of [uu] and [ud]
    change places, those of [du] and [dd] stay. *)
Theorem cnot_on_superposition (u_level : bool) (a_uu a_ud a_du a_dd : complex) :
  (cnot u_level * state2 u_level a_uu a_ud a_du a_dd)%qobj
    = state2 u_level a_ud a_uu a_du a_dd /\
  is_ok (state2 u_level a_ud a_uu a_du a_dd) = true.
Proof.
  unfold state2. destruct u_level.
  - eval_closed (cnot true). eval_kets2 true.
    amplitudes. split; reflexivity.
  - eval_closed (cnot false). eval_kets2 false.
    amplitudes. split; reflexivity.
Qed.

(** [fredkin()] on the general three-qubit state: the amplitudes of [uud]
    and [udu] change places, the other six stay. *)
Theorem fredkin_on_superposition (u_level : bool)
    (a_uuu a_uud a_udu a_udd a_duu a_dud a_ddu a_ddd : complex) :
  (fredkin u_level
     * state3 u_level a_uuu a_uud a_udu a_udd a_duu a_dud a_ddu a_ddd)%qobj
    = state3 u_level a_uuu a_udu a_uud a_udd a_duu a_dud a_ddu a_ddd /\
  is_ok (state3 u_level a_uuu a_udu a_uud a_udd a_duu a_dud a_ddu a_ddd)
    = true.
Proof.
  unfold state3. destruct u_level.
  - eval_closed (fredkin true). eval_kets3 true.
    amplitudes. split; reflexivity.
  - eval_closed (fredkin false). eval_kets3 false.
    amplitudes. split; reflexivity.
Qed.

(** [toffoli()] on the general three-qubit state: the amplitudes of [uuu]
    and [uud] change places, the other six stay. *)
Theorem toffoli_on_superposition (u_level : bool)
    (a_uuu a_uud a_udu a_udd a_duu a_dud a_ddu a_ddd : complex) :
  (toffoli u_level
     * state3 u_level a_uuu a_uud a_udu a_udd a_duu a_dud a_ddu a_ddd)%qobj
    = state3 u_level a_uud a_uuu a_udu a_udd a_duu a_dud a_ddu a_ddd /\
  is_ok (state3 u_level a_uud a_uuu a_udu a_udd a_duu a_dud a_ddu a_ddd)
    = true.
Proof.
  unfold state3. destruct u_level.
  - eval_closed (toffoli true). eval_kets3 true.
    amplitudes. split; reflexivity.
  - eval_closed (toffoli false). eval_kets3 false.
    amplitudes. split; reflexivity.
Qed.

(** ** How the gates are built from one another *)

(** [toffoli()] is [cnot()] on the last two qubits controlled by the first:
    the identity where the first qubit is [d], [cnot()] where it is [u]. *)
Theorem toffoli_controlled_cnot (u_level : bool) :
  let u := qstate u_level "u" in
  let d := qstate u_level "d" in
  let I2 := Ok (qeye 2) in
  toffoli u_level
    = (tensor_of [d * dag d; I2; I2]
       + tensor_of [u * dag u; cnot u_level])%qobj /\
  is_ok (toffoli u_level) = true.
Proof. destruct u_level; cbv zeta; split; by_evaluation. Qed.

(** The model runs the whole of [test_modify_ctrls] and every assertion of
    the test holds. *)
Lemma test_modify_ctrls_passes :
  test_modify_ctrls = Ok [true; true; true; true; true; true].
Proof. by_evaluation. Qed.

(* ================================================================== *)
(** * Properties of the pulse list *)

Local Open Scope nat_scope.

Section RemoveAt.

Context {X : Type}.
Implicit Types (l : list X) (indices : list nat).

Lemma not_listed indices (i : nat) :
  (forall j, In j indices -> i < j) -> existsb (Nat.eqb i) indices = false.
Proof.
  intros Hlt. apply not_true_is_false. intros Hex.
  apply existsb_exists in Hex as (j & Hin & Heq).
  apply Nat.eqb_eq in Heq. subst j. specialize (Hlt _ Hin). lia.
Qed.

(** Removing positions that all lie at or past [i + k] leaves the first
    [k] elements alone. *)
Lemma remove_at_keeps_prefix indices l :
  forall i k,
    (forall j, In j indices -> i + k <= j) ->
    firstn k (remove_at indices i l) = firstn k l.
Proof.
  induction l as [| x l IH]; intros i k Hge.
  - reflexivity.
  - destruct k as [| k]; [reflexivity |].
    cbn [remove_at].
    rewrite not_listed by (intros j Hin; specialize (Hge _ Hin); lia).
    cbn [firstn]. f_equal.
    apply IH. intros j Hin. specialize (Hge _ Hin). lia.
Qed.

(** Removing every position of a list leaves nothing. *)
Lemma remove_at_all indices l :
  forall i,
    (forall j, i <= j < i + List.length l -> In j indices) ->
    remove_at indices i l = [].
Proof.
  induction l as [| x l IH]; intros i Hall.
  - reflexivity.
  - cbn [remove_at].
    assert (Hi : existsb (Nat.eqb i) indices = true).
    { apply existsb_exists. exists i. split.
      - apply Hall. cbn [List.length]. lia.
      - apply Nat.eqb_refl. }
    rewrite Hi. apply IH. intros j Hj. apply Hall. cbn [List.length]. lia.
Qed.

(** Removing exactly the positions of an appended block gives back the
    list the block was appended to. *)
Lemma remove_at_appended l added :
  forall i,
    remove_at (seq (i + List.length l) (List.length added)) i (l ++ added) = l.
Proof.
  induction l as [| x l IH]; intros i.
  - cbn [List.length app]. rewrite Nat.add_0_r.
    apply remove_at_all. intros j Hj. apply in_seq. exact Hj.
  - cbn [app remove_at List.length].
    rewrite not_listed by (intros j Hin; apply in_seq in Hin; lia).
    f_equal.
    replace (i + S (List.length l)) with (S i + List.length l) by lia.
    apply IH.
Qed.

End RemoveAt.

Lemma add_control_appends (proc : Processor) (q : Qobj)
    (ts : option (list nat)) (cyc : bool) :
  exists added : list Pulse,
    pulses (add_control proc q ts cyc) = pulses proc ++ added.
Proof. unfold add_control. cbn [pulses]. eexists. reflexivity. Qed.

Lemma prefix_length {X : Type} (n : nat) (l orig : list X) :
  firstn n l = orig -> List.length orig = n -> n <= List.length l.
Proof.
  intros Hpre Hlen. rewrite <- Hpre, length_firstn in Hlen. lia.
Qed.

(** What a sequence of calls leaves untouched: the processor's size,
    dimensions and spline kind. *)
Lemma run_calls_frame (cs : list call) :
  forall proc proc',
    run_calls proc cs = Ok proc' ->
    proc_N proc' = proc_N proc /\ proc_dims proc' = proc_dims proc /\
    spline_kind proc' = spline_kind proc.
Proof.
  induction cs as [| c cs IH]; intros proc proc' Hrun.
  - injection Hrun as <-. auto.
  - destruct c as [q ts cyc | ix]; cbn [run_calls] in Hrun.
    + apply IH in Hrun. exact Hrun.
    + unfold remove_pulse in Hrun.
      destruct (forallb _ ix); [| discriminate].
      cbn [bind] in Hrun. apply IH in Hrun. exact Hrun.
Qed.

(** The invariant of the pulse list: as long as removals name positions of
    later additions only, the pulses that were there at the start stay at
    the front, unchanged and in order. *)
Lemma run_calls_keeps_prefix (orig : list Pulse) (cs : list call) :
  forall proc proc',
    firstn (List.length orig) (pulses proc) = orig ->
    forallb (removes_added_only (List.length orig)) cs = true ->
    run_calls proc cs = Ok proc' ->
    firstn (List.length orig) (pulses proc') = orig.
Proof.
  induction cs as [| c cs IH]; intros proc proc' Hpre Hcs Hrun.
  - injection Hrun as <-. exact Hpre.
  - cbn [forallb] in Hcs. apply andb_true_iff in Hcs as [Hc Hcs].
    destruct c as [q ts cyc | ix]; cbn [run_calls] in Hrun.
    + apply (IH (add_control proc q ts cyc)); [| exact Hcs | exact Hrun].
      destruct (add_control_appends proc q ts cyc) as [added ->].
      pose proof (prefix_length _ Hpre eq_refl) as Hle.
      rewrite firstn_app.
      replace (List.length orig - List.length (pulses proc)) with 0 by lia.
      cbn [firstn]. rewrite app_nil_r. exact Hpre.
    + unfold remove_pulse in Hrun.
      destruct (forallb _ ix); [| discriminate].
      cbn [bind] in Hrun.
      apply IH in Hrun; [exact Hrun | | exact Hcs].
      cbn [pulses removes_added_only] in *.
      rewrite remove_at_keeps_prefix; [exact Hpre |].
      intros j Hin. rewrite forallb_forall in Hc.
      apply Hc in Hin. apply Nat.leb_le in Hin. lia.
Qed.

(** Adding one control (with or without cyclic permutation) and removing the
    positions it was given succeeds and gives the processor back. *)
Lemma add_control_then_remove (proc : Processor) (q : Qobj)
    (ts : option (list nat)) (cyc : bool) :
  let proc1 := add_control proc q ts cyc in
  remove_pulse proc1
    (seq (List.length (pulses proc))
         (List.length (pulses proc1) - List.length (pulses proc)))
  = Ok proc.
Proof.
  cbv zeta.
  destruct (add_control_appends proc q ts cyc) as [added Hadd].
  unfold remove_pulse. rewrite Hadd, length_app.
  replace (List.length (pulses proc) + List.length added
           - List.length (pulses proc)) with (List.length added) by lia.
  assert (Hin_range :
    forallb (fun i => i <? List.length (pulses proc) + List.length added)
            (seq (List.length (pulses proc)) (List.length added)) = true).
  { apply forallb_forall. intros j Hj. apply in_seq in Hj.
    apply Nat.ltb_lt. lia. }
  rewrite Hin_range.
  pose proof (remove_at_appended (pulses proc) added 0) as Hremoved.
  cbn [Nat.add] in Hremoved. rewrite Hremoved.
  destruct proc; reflexivity.
Qed.

Lemma run_calls_app (cs cs' : list call) :
  forall proc,
    run_calls proc (cs ++ cs')
    = (proc1 <- run_calls proc cs ;; run_calls proc1 cs')%result.
Proof.
  induction cs as [| c cs IH]; intros proc.
  - reflexivity.
  - destruct c as [q ts cyc | ix]; cbn [app run_calls].
    + apply IH.
    + destruct (remove_pulse proc ix) as [proc2 | e]; cbn [bind].
      * apply IH.
      * reflexivity.
Qed.

(** How many pulses [add_control] appends: one, or one per subsystem when
    the control is permuted cyclically. *)
Lemma add_control_length (proc : Processor) (q : Qobj)
    (ts : option (list nat)) (cyc : bool) :
  List.length (pulses (add_control proc q ts cyc))
  = List.length (pulses proc)
    + (if cyc then List.length (proc_dims proc) else 1).
Proof.
  unfold add_control, cyclic_targets. cbn [pulses].
  rewrite length_app. destruct cyc; cbn [List.length].
  - rewrite !length_map, length_seq, Nat.div_1_r. reflexivity.
  - reflexivity.
Qed.

(** Removing every pulse behind the first [length (pulses proc)] of a
    processor whose pulse list starts with the pulses of [proc], and which
    agrees with [proc] otherwise, gives [proc]. *)
Lemma remove_added_gives_back (proc proc1 : Processor) :
  firstn (List.length (pulses proc)) (pulses proc1) = pulses proc ->
  proc_N proc1 = proc_N proc ->
  proc_dims proc1 = proc_dims proc ->
  spline_kind proc1 = spline_kind proc ->
  remove_pulse proc1
    (seq (List.length (pulses proc))
         (List.length (pulses proc1) - List.length (pulses proc)))
  = Ok proc.
Proof.
  intros Hpre HN Hdims Hkind.
  pose proof (prefix_length _ Hpre eq_refl) as Hle.
  set (n := List.length (pulses proc)) in *.
  set (rest := skipn n (pulses proc1)).
  assert (Hsplit : pulses proc1 = pulses proc ++ rest).
  { rewrite <- Hpre. symmetry. apply firstn_skipn. }
  assert (Hrest : List.length rest = List.length (pulses proc1) - n).
  { unfold rest. apply length_skipn. }
  unfold remove_pulse.
  assert (Hin_range :
    forallb (fun i => i <? List.length (pulses proc1))
            (seq n (List.length (pulses proc1) - n)) = true).
  { apply forallb_forall. intros j Hj. apply in_seq in Hj.
    apply Nat.ltb_lt. lia. }
  rewrite Hin_range, <- Hrest, Hsplit.
  pose proof (remove_at_appended (pulses proc) rest 0) as Hremoved.
  cbn [Nat.add] in Hremoved. fold n in Hremoved. rewrite Hremoved.
  rewrite HN, Hdims, Hkind. destruct proc; reflexivity.
Qed.


